(** * Mandelbrot viewer: escape-time evaluator, grid generator, zoom history

    A shallow embedding of [mandel.py].  The three computational functions
    ([mandelbrot], [compute_row], [generate_mandelbrot]) and the four
    functions that touch the zoom globals ([update_plot], [onselect],
    [reset], [zoom_back]) are translated one by one.

    Python numbers are duck-typed: [mandelbrot] runs on whatever supports
    [**], [+] and [abs].  The embedding therefore takes the arithmetic as an
    interface ([Arith]) and proves each property for every implementation
    of it, naming as hypotheses the few laws a proof relies on.  The
    interface is instantiated twice to run the definitions on concrete
    inputs: with the binary64 numbers the program computes with
    ([Binary64]) and with exact rational arithmetic ([Exact]). *)

From Stdlib Require Import ZArith QArith Qcanon List Bool Lia.
From Stdlib Require PrimFloat.
Import ListNotations.
Open Scope Z_scope.

Set Implicit Arguments.

(** ** Python values and exceptions *)

(** The exceptions the modelled code can raise: [ValueError] comes from
    [np.linspace] on a negative sample count, [IndexError] from indexing a
    list or an array outside its bounds, [NameError] from reading a global
    name that was never bound. *)
Inductive exn : Type :=
| ValueError
| IndexError
| NameError.

(** Outcome of a call: a returned value or a raised exception. *)
Inductive result (A : Type) : Type :=
| Returned (a : A)
| Raised (e : exn).

Arguments Returned {A} a.
Arguments Raised {A} e.

Definition bind {A B : Type} (r : result A) (k : A -> result B) : result B :=
  match r with
  | Returned a => k a
  | Raised e => Raised e
  end.

Notation "x <- r ;; k" := (bind r (fun x => k))
  (at level 61, r at next level, right associativity).

(** Results of a list of calls, collected in order; the first exception in
    list order is the one that propagates. *)
Fixpoint collect {A : Type} (rs : list (result A)) : result (list A) :=
  match rs with
  | [] => Returned []
  | r :: rest => a <- r ;; l <- collect rest ;; Returned (a :: l)
  end.

(** [range(n)]: the integers [0 .. n-1], empty when [n <= 0]. *)
Definition range (n : Z) : list Z := map Z.of_nat (seq 0 (Z.to_nat n)).

(** [a[k]]: a negative index counts from the end, an index outside the
    sequence raises [IndexError]. *)
Definition index {A : Type} (a : list A) (k : Z) : result A :=
  let n := Z.of_nat (length a) in
  let k := if k <? 0 then k + n else k in
  if (k <? 0) || (n <=? k) then Raised IndexError
  else match nth_error a (Z.to_nat k) with
       | Some x => Returned x
       | None => Raised IndexError
       end.

(** ** The arithmetic interface *)

(** [float] stands for the real-valued numbers of the program (viewport
    bounds, samples, click coordinates, timings), [complex] for the values
    [mandelbrot] iterates on. *)
Class Arith : Type := {
  float : Type;
  complex : Type;
  f_lit : Q -> float;                     (* a numeric literal, an int as float *)
  fadd : float -> float -> float;         (* x + y *)
  fsub : float -> float -> float;         (* x - y *)
  fmul : float -> float -> float;         (* x * y *)
  fdiv : float -> float -> float;         (* x / y *)
  fltb : float -> float -> bool;          (* x < y *)
  c_of_float : float -> complex;          (* promotion to complex *)
  imag_unit : complex;                    (* 1j *)
  cadd : complex -> complex -> complex;   (* z + w *)
  cmul : complex -> complex -> complex;   (* z * w *)
  csq : complex -> complex;               (* z ** 2 *)
  abs_gt2 : complex -> bool               (* abs(z) > 2 *)
}.

Section Core.

Context {AR : Arith}.

(** The initial [z = 0].  In Python it is the int [0]; [abs], [**2] and
    [+ c] promote it, so it is taken in [complex] from the start. *)
Definition czero : complex := c_of_float (f_lit 0).

(** ** Escape-time evaluator *)

(** The loop [for n in range(max_iter)] of [mandelbrot], on the remaining
    values of [n]: test [abs(z) > 2] first, then update [z]. *)
Fixpoint mandelbrot_loop (ns : list Z) (z c : complex) (max_iter : Z) : Z :=
  match ns with
  | [] => max_iter
  | n :: rest =>
      if abs_gt2 z then n
      else mandelbrot_loop rest (cadd (csq z) c) c max_iter
  end.

Definition mandelbrot (c : complex) (max_iter : Z) : Z :=
  mandelbrot_loop (range max_iter) czero c max_iter.

(** ** Laws of the arithmetic used by some proofs *)

(** [abs(0) > 2] is false. *)
Definition abs_zero_law : Prop := abs_gt2 czero = false.

(** [0**2 + c] has the magnitude of [c], as far as the escape test sees. *)
Definition first_step_law : Prop :=
  forall c, abs_gt2 (cadd (csq czero) c) = abs_gt2 c.

(** [0**2 + 0] is [0]. *)
Definition zero_fixed_law : Prop := cadd (csq czero) czero = czero.

(** ** Grid generator *)

(** [np.linspace(start, stop, num)] with the default [endpoint=True]:
    a negative [num] raises [ValueError]; otherwise the samples are
    [arange(0, num) * step + start] with [step = (stop - start) / (num - 1)],
    the last one overwritten by [stop] when [num > 1]; with [num = 1] the
    step is undefined and the single sample is [0 * (stop - start) + start].
    (numpy reorders the multiplication when [step] is zero, to protect
    denormal numbers; that variant is left out.) *)
Definition linspace (start stop : float) (num : Z) : result (list float) :=
  if num <? 0 then Raised ValueError
  else
    let div := num - 1 in
    let delta := fsub stop start in
    let y := map (fun k => f_lit (inject_Z k)) (range num) in
    let y :=
      if 0 <? div
      then let step := fdiv delta (f_lit (inject_Z div)) in
           map (fun v => fmul v step) y
      else map (fun v => fmul v delta) y in
    let y := map (fun v => fadd v start) y in
    Returned (if 1 <? num then removelast y ++ [stop] else y).

(** [compute_row]: the cells of row [i], column by column. *)
Definition compute_row (i : Z) (real imag : list float) (max_iter width : Z)
  : result (list Z) :=
  collect
    (map (fun j =>
            x <- index real j ;;
            y <- index imag i ;;
            let c := cadd (c_of_float x) (cmul imag_unit (c_of_float y)) in
            Returned (mandelbrot c max_iter))
         (range width)).

(** [[x] * n] *)
Definition times {A : Type} (x : A) (n : Z) : list A := repeat x (Z.to_nat n).

(** [executor.map(fn, a1, a2, a3, a4, a5)] consumed by [list(...)]: one call
    per tuple of the zipped argument lists, every call submitted to the pool,
    the results taken in submission order whatever the completion order.
    The first component records the row index of each submitted call. *)
Definition executor_map {B : Type}
  (fn : Z -> list float -> list float -> Z -> Z -> result B)
  (a1 : list Z) (a2 a3 : list (list float)) (a4 a5 : list Z)
  : list Z * result (list B) :=
  let calls := combine a1 (combine a2 (combine a3 (combine a4 a5))) in
  (map fst calls,
   collect (map (fun '(i, (re, (im, (m, w)))) => fn i re im m w) calls)).

(** The grid: a list of rows ([np.array] of a list of equally long lists). *)
Definition grid : Type := list (list Z).

(** [generate_mandelbrot]: the row indices dispatched to the pool, and the
    outcome of the call. *)
Definition generate_mandelbrot
  (xmin xmax ymin ymax : float) (width height max_iter : Z)
  : list Z * result grid :=
  match linspace xmin xmax width with
  | Raised e => ([], Raised e)
  | Returned real =>
      match linspace ymin ymax height with
      | Raised e => ([], Raised e)
      | Returned imag =>
          executor_map compute_row
            (range height) (times real height) (times imag height)
            (times max_iter height) (times width height)
      end
  end.




(** *** The grid as the specification words it *)



(** Cell [(i, j)] evaluated at [real[j] + 1j * imag[i]], rows in order and
    columns in order within a row, computed sequentially. *)
Definition spec_cell (real imag : list float) (max_iter i j : Z) : Z :=
  mandelbrot
    (cadd (c_of_float (nth (Z.to_nat j) real (f_lit 0)))
          (cmul imag_unit (c_of_float (nth (Z.to_nat i) imag (f_lit 0)))))
    max_iter.


(** ** Zoom state and its handlers *)

(** A zoom dictionary with the keys [xmin], [xmax], [ymin], [ymax]. *)
Record viewport : Type := Viewport {
  vxmin : float;
  vxmax : float;
  vymin : float;
  vymax : float
}.

(** The module globals the handlers read and write.  [zoom_history] is a
    Python list used as a stack: [append] and [pop] work at its end.  Every
    dictionary stored in it is a [copy()], and [zoom_params.update] changes
    [zoom_params] only, so no two entries share an object. *)
Record state : Type := State {
  zoom_params : viewport;
  zoom_history : list viewport;
  timing_history : list float
}.

Definition original_zoom : viewport :=
  Viewport (f_lit (-25 # 10)) (f_lit 1) (f_lit (-15 # 10)) (f_lit (15 # 10)).

Definition init_state : state := State original_zoom [original_zoom] [].

Definition width : Z := 800.
Definition height : Z := 800.
Definition max_iter : Z := 100.

(** The position of a mouse event in data coordinates. *)
Record mouse_event : Type := MouseEvent {
  xdata : float;
  ydata : float
}.

(** [sorted([a, b])] *)
Definition sorted2 (a b : float) : float * float :=
  if fltb b a then (b, a) else (a, b).

(** [update_plot]: sets the current zoom, generates the grid, records the
    time the generation took ([elapsed], read from the clock) and averages
    the timings.  The drawing that follows starts with [ax.clear()]; [ax],
    like [time_text] and [canvas], is a local variable of [run_gui] and not
    a global, so reading it raises [NameError]: the call ends there, the
    globals already updated. *)
Definition update_plot (xmin xmax ymin ymax : float) (elapsed : float)
  (s : state) : state * result unit :=
  let s1 := State (Viewport xmin xmax ymin ymax)
                  (zoom_history s) (timing_history s) in
  let mandelbrot_zoom :=
    snd (generate_mandelbrot xmin xmax ymin ymax width height max_iter) in
  match mandelbrot_zoom return state * result unit with
  | Raised e => (s1, Raised e)
  | Returned _ =>
      (State (zoom_params s1) (zoom_history s1)
             (timing_history s1 ++ [elapsed]),
       Raised NameError)
  end.

(** [onselect]: the rectangle-selection callback. *)
Definition onselect (eclick erelease : mouse_event) (elapsed : float)
  (s : state) : state * result unit :=
  let '(xmin, xmax) := sorted2 (xdata eclick) (xdata erelease) in
  let '(ymin, ymax) := sorted2 (ydata eclick) (ydata erelease) in
  let s1 := State (zoom_params s)
                  (zoom_history s ++ [zoom_params s])
                  (timing_history s) in
  update_plot xmin xmax ymin ymax elapsed s1.

(** [reset]: back to the original zoom, history and timings cleared. *)
Definition reset (elapsed : float) (s : state) : state * result unit :=
  let s1 := State original_zoom [original_zoom] [] in
  update_plot (vxmin original_zoom) (vxmax original_zoom)
              (vymin original_zoom) (vymax original_zoom) elapsed s1.

(** [zoom_back]: the handler of the Back button. *)
Definition zoom_back (elapsed : float) (s : state) : state * result unit :=
  if (1 <? Z.of_nat (length (zoom_history s)))
  then
    let s1 := State (zoom_params s)
                    (removelast (zoom_history s))
                    (timing_history s) in
    match index (zoom_history s1) (-1) with
    | Raised e => (s1, Raised e)
    | Returned previous_zoom =>
        update_plot (vxmin previous_zoom) (vxmax previous_zoom)
                    (vymin previous_zoom) (vymax previous_zoom) elapsed s1
    end
  else (s, Returned tt).

(** One user action, and the states the program can be in.  An exception
    that leaves a handler is reported by the event loop, which goes on
    with the globals as the handler left them. *)
Inductive step : state -> state -> Prop :=
| step_onselect : forall eclick erelease elapsed s,
    step s (fst (onselect eclick erelease elapsed s))
| step_reset : forall elapsed s,
    step s (fst (reset elapsed s))
| step_zoom_back : forall elapsed s,
    step s (fst (zoom_back elapsed s)).

Inductive reachable : state -> Prop :=
| reachable_init : reachable init_state
| reachable_step : forall s s', reachable s -> step s s' -> reachable s'.

(** ** Notions used to state further properties *)

(** The value [z] has when the loop of [mandelbrot c] enters iteration [n],
    if it gets that far: [n] updates [z = z**2 + c] from [z = 0]. *)
Definition orbit (c : complex) (n : nat) : complex :=
  Nat.iter n (fun z => cadd (csq z) c) czero.

(** [a < b] and [b < a] never hold together. *)
Definition lt_asym_law : Prop :=
  forall a b, fltb a b = true -> fltb b a = false.


(** The Back button pressed once for each clock reading of [ts]. *)
Definition press_back (ts : list float) (s : state) : state :=
  fold_left (fun s t => fst (zoom_back t s)) ts s.

(** The average [update_plot] shows after it has recorded the time:
    [sum(timing_history) / len(timing_history)].  [sum] adds from the left,
    starting at 0; [None] stands for the [ZeroDivisionError] of a division
    by [len([])]. *)
Definition average_time (timing : list float) : option float :=
  match timing with
  | [] => None
  | _ :: _ =>
      Some (fdiv (fold_left fadd timing (f_lit 0))
                 (f_lit (inject_Z (Z.of_nat (length timing)))))
  end.

(** An index that [a[k]] accepts. *)
Definition valid_index {A : Type} (a : list A) (k : Z) : bool :=
  (- Z.of_nat (length a) <=? k) && (k <? Z.of_nat (length a)).

End Core.

Arguments viewport {AR}.
Arguments state {AR}.
Arguments mouse_event {AR}.

(** ** Exact rational arithmetic *)

(** An implementation of the interface without rounding: reals are
    rationals in lowest terms, complex numbers pairs of them, and
    [abs(z) > 2] is decided as [re^2 + im^2 > 4]. *)
Module Exact.

Definition cx : Type := (Qc * Qc)%type.

Definition lt (a b : Qc) : bool :=
  match (a ?= b)%Qc with Lt => true | _ => false end.

Definition add (z w : cx) : cx := ((fst z + fst w)%Qc, (snd z + snd w)%Qc).

Definition mul (z w : cx) : cx :=
  ((fst z * fst w - snd z * snd w)%Qc, (fst z * snd w + snd z * fst w)%Qc).

Definition escaped (z : cx) : bool :=
  lt (Q2Qc 4) (fst z * fst z + snd z * snd z)%Qc.

#[export] Instance arith : Arith := {|
  float := Qc;
  complex := cx;
  f_lit := Q2Qc;
  fadd := Qcplus;
  fsub := Qcminus;
  fmul := Qcmult;
  fdiv := Qcdiv;
  fltb := lt;
  c_of_float := fun x => (x, Q2Qc 0);
  imag_unit := (Q2Qc 0, Q2Qc 1);
  cadd := add;
  cmul := mul;
  csq := fun z => mul z z;
  abs_gt2 := escaped
|}.

(** The complex number [re + im j] with integer parts. *)
Definition gauss (re im : Z) : cx := (Q2Qc (inject_Z re), Q2Qc (inject_Z im)).

(** Two zoom gestures: the corners dragged, and the zoom each one selects.
    The first is dragged from its upper right corner to its lower left. *)
Definition clickA : mouse_event := MouseEvent (Q2Qc 0) (Q2Qc 0).
Definition releaseA : mouse_event := MouseEvent (Q2Qc (-1)) (Q2Qc (-1)).
Definition viewA : viewport :=
  Viewport (Q2Qc (-1)) (Q2Qc 0) (Q2Qc (-1)) (Q2Qc 0).

Definition clickB : mouse_event := MouseEvent (Q2Qc (-1)) (Q2Qc (-1 # 2)).
Definition releaseB : mouse_event := MouseEvent (Q2Qc (-1 # 2)) (Q2Qc 0).
Definition viewB : viewport :=
  Viewport (Q2Qc (-1)) (Q2Qc (-1 # 2)) (Q2Qc (-1 # 2)) (Q2Qc 0).

(** Generation times read from the clock, in seconds. *)
Definition secs (q : Q) : Qc := Q2Qc q.

End Exact.

(** ** Binary64 arithmetic *)

(** The arithmetic of the program: [np.linspace] yields [float64] samples
    and [real[j] + 1j * imag[i]] a [complex128], whose operations are the
    IEEE 754 binary64 ones on the real and imaginary parts. *)
Module Binary64.

(** An integer as a float, exact below [2^53]. *)
Fixpoint float_of_pos (p : positive) : PrimFloat.float :=
  match p with
  | xH => PrimFloat.one
  | xO q => PrimFloat.mul PrimFloat.two (float_of_pos q)
  | xI q =>
      PrimFloat.add (PrimFloat.mul PrimFloat.two (float_of_pos q))
                    PrimFloat.one
  end.

Definition float_of_Z (z : Z) : PrimFloat.float :=
  match z with
  | Z0 => PrimFloat.zero
  | Zpos p => float_of_pos p
  | Zneg p => PrimFloat.opp (float_of_pos p)
  end.

(** A literal: the float nearest to the fraction. *)
Definition lit (q : Q) : PrimFloat.float :=
  PrimFloat.div (float_of_Z (Qnum q)) (float_of_Z (Zpos (Qden q))).

Definition cx : Type := (PrimFloat.float * PrimFloat.float)%type.

Definition add (z w : cx) : cx :=
  (PrimFloat.add (fst z) (fst w), PrimFloat.add (snd z) (snd w)).

Definition mul (z w : cx) : cx :=
  (PrimFloat.sub (PrimFloat.mul (fst z) (fst w))
                 (PrimFloat.mul (snd z) (snd w)),
   PrimFloat.add (PrimFloat.mul (fst z) (snd w))
                 (PrimFloat.mul (snd z) (fst w))).

(** [abs(z) > 2]: the magnitude is [hypot(re, im)], infinite as soon as one
    part is, even beside a NaN, and taken otherwise as
    [sqrt(re*re + im*im)].  The [hypot] of the C library guards the squares
    against overflow and underflow, which does not change the comparison
    with 2, and may differ from this in the last bit of the magnitude. *)
Definition escaped (z : cx) : bool :=
  PrimFloat.is_infinity (fst z) || PrimFloat.is_infinity (snd z) ||
  PrimFloat.ltb PrimFloat.two
    (PrimFloat.sqrt (PrimFloat.add (PrimFloat.mul (fst z) (fst z))
                                   (PrimFloat.mul (snd z) (snd z)))).

#[export] Instance arith : Arith := {|
  float := PrimFloat.float;
  complex := cx;
  f_lit := lit;
  fadd := PrimFloat.add;
  fsub := PrimFloat.sub;
  fmul := PrimFloat.mul;
  fdiv := PrimFloat.div;
  fltb := PrimFloat.ltb;
  c_of_float := fun x => (x, PrimFloat.zero);
  imag_unit := (PrimFloat.zero, PrimFloat.one);
  cadd := add;
  cmul := mul;
  csq := fun z => mul z z;
  abs_gt2 := escaped
|}.

Import PrimFloat.


End Binary64.

(** ** Properties of the escape-time evaluator *)

Section EvaluatorFacts.

Context {AR : Arith}.

Lemma range_of_nat (k : nat) : range (Z.of_nat k) = map Z.of_nat (seq 0 k).
Proof. unfold range. now rewrite Nat2Z.id. Qed.

Lemma range_nonpos (n : Z) : n <= 0 -> range n = [].
Proof.
  intros Hn. unfold range.
  replace (Z.to_nat n) with 0%nat by lia. reflexivity.
Qed.

Lemma range_length (n : Z) : length (range n) = Z.to_nat n.
Proof. unfold range. now rewrite length_map, length_seq. Qed.

Lemma range_In (n k : Z) : In k (range n) <-> 0 <= k < n.
Proof.
  unfold range. rewrite in_map_iff. split.
  - intros (x & <- & Hx). apply in_seq in Hx. lia.
  - intros Hk. exists (Z.to_nat k). split; [lia|]. apply in_seq. lia.
Qed.

(** The loop started at iteration [s] with [k] iterations left returns
    either the cap or an iteration number it went through. *)
Lemma loop_value (k s : nat) (z c : complex) (m : Z) :
  let r := mandelbrot_loop (map Z.of_nat (seq s k)) z c m in
  r = m \/ Z.of_nat s <= r < Z.of_nat (s + k).
Proof.
  revert s z. induction k as [|k IH]; intros s z; simpl.
  - now left.
  - destruct (abs_gt2 z).
    + right. lia.
    + destruct (IH (S s) (cadd (csq z) c)) as [H|H]; [now left|right; lia].
Qed.

(** When the cap is the number of the last iteration plus one, the result
    lies between the first iteration number and the cap. *)
Lemma loop_bounds (k s : nat) (z c : complex) :
  let r := mandelbrot_loop (map Z.of_nat (seq s k)) z c (Z.of_nat (s + k)) in
  Z.of_nat s <= r <= Z.of_nat (s + k).
Proof.
  intros r. destruct (loop_value k s z c (Z.of_nat (s + k))) as [H|H];
    fold r in H; lia.
Qed.

(** Truncation of the loop: fewer remaining iterations give the result of
    the longer run cut at the smaller cap. *)
Lemma loop_truncate (k1 : nat) :
  forall (k2 s : nat) (z c : complex),
    (k1 <= k2)%nat ->
    mandelbrot_loop (map Z.of_nat (seq s k1)) z c (Z.of_nat (s + k1)) =
    Z.min (mandelbrot_loop (map Z.of_nat (seq s k2)) z c (Z.of_nat (s + k2)))
          (Z.of_nat (s + k1)).
Proof.
  induction k1 as [|k1 IH]; intros k2 s z c Hle.
  - simpl. pose proof (loop_bounds k2 s z c) as Hb. simpl in Hb.
    rewrite Nat.add_0_r. lia.
  - destruct k2 as [|k2]; [lia|]. simpl.
    destruct (abs_gt2 z).
    + lia.
    + replace (s + S k1)%nat with (S s + k1)%nat by lia.
      replace (s + S k2)%nat with (S s + k2)%nat by lia.
      apply IH. lia.
Qed.

Lemma mandelbrot_of_nat (c : complex) (k : nat) :
  mandelbrot c (Z.of_nat k) =
  mandelbrot_loop (map Z.of_nat (seq 0 k)) czero c (Z.of_nat (0 + k)).
Proof. unfold mandelbrot. now rewrite range_of_nat. Qed.

(** The result is never negative nor above a non-negative cap. *)
Lemma mandelbrot_bounds (c : complex) (max_iter : Z) :
  0 <= max_iter -> 0 <= mandelbrot c max_iter <= max_iter.
Proof.
  intros Hm. rewrite <- (Z2Nat.id max_iter) by assumption.
  rewrite mandelbrot_of_nat.
  pose proof (loop_bounds (Z.to_nat max_iter) 0 czero c) as Hb.
  simpl in Hb. simpl. lia.
Qed.

(** The loop run from [z = 0] with [c = 0] never leaves [0]. *)
Lemma loop_zero (ns : list Z) (m : Z) :
  abs_zero_law -> zero_fixed_law ->
  mandelbrot_loop ns czero czero m = m.
Proof.
  intros Habs Hfix. induction ns as [|n ns IH]; simpl.
  - reflexivity.
  - rewrite Habs, Hfix. exact IH.
Qed.

(** C9: for every [c] and every [max_iter >= 1], [mandelbrot c max_iter] is
    at least 1: iteration 0 tests [z = 0], whose magnitude is not above 2,
    so 0 is never returned. *)
Theorem mandelbrot_at_least_one (c : complex) (max_iter : Z) :
  abs_zero_law ->
  1 <= max_iter ->
  1 <= mandelbrot c max_iter.
Proof.
  intros Habs Hm.
  rewrite <- (Z2Nat.id max_iter) by lia. rewrite mandelbrot_of_nat.
  destruct (Z.to_nat max_iter) as [|k] eqn:Hk; [lia|].
  simpl. rewrite Habs.
  pose proof (loop_bounds k 1 (cadd (csq czero) c) c) as Hb.
  simpl in Hb. lia.
Qed.

(** C10: for every [c] and all [1 <= m1 <= m2],
    [mandelbrot c m1 = min (mandelbrot c m2) m1]. *)
Theorem mandelbrot_cap_truncates (c : complex) (m1 m2 : Z) :
  1 <= m1 ->
  m1 <= m2 ->
  mandelbrot c m1 = Z.min (mandelbrot c m2) m1.
Proof.
  intros H1 H12.
  rewrite <- (Z2Nat.id m1) by lia. rewrite <- (Z2Nat.id m2) by lia.
  rewrite !mandelbrot_of_nat.
  apply loop_truncate. lia.
Qed.

(** C7: for [c = 0] and every [max_iter >= 1], [mandelbrot c max_iter] is
    [max_iter]: [z] stays 0 through every iteration. *)
Theorem mandelbrot_zero_never_escapes (max_iter : Z) :
  abs_zero_law -> zero_fixed_law ->
  1 <= max_iter ->
  mandelbrot czero max_iter = max_iter.
Proof.
  intros Habs Hfix _. unfold mandelbrot. now apply loop_zero.
Qed.

(** C2, as the code has it: for every [c] with [abs(c) > 2] and every
    [max_iter >= 1], [mandelbrot c max_iter] is 1.  Iteration 0 tests
    [z = 0] and only then sets [z] to [c]; the escape is seen at
    iteration 1, or the loop ends first when [max_iter = 1]. *)
Theorem mandelbrot_outside_returns_one (c : complex) (max_iter : Z) :
  abs_zero_law -> first_step_law ->
  abs_gt2 c = true ->
  1 <= max_iter ->
  mandelbrot c max_iter = 1.
Proof.
  intros Habs Hfirst Hc Hm.
  rewrite <- (Z2Nat.id max_iter) by lia. rewrite mandelbrot_of_nat.
  destruct (Z.to_nat max_iter) as [|[|k]] eqn:Hk; [lia| |]; simpl; rewrite Habs.
  - reflexivity.
  - now rewrite Hfirst, Hc.
Qed.

End EvaluatorFacts.

(** ** Properties of the grid generator *)

Section GridFacts.

Context {AR : Arith}.

Lemma collect_map_Returned {A B : Type} (f : A -> result B) (g : A -> B)
  (l : list A) :
  (forall x, In x l -> f x = Returned (g x)) ->
  collect (map f l) = Returned (map g l).
Proof.
  induction l as [|a l IH]; intros H; simpl.
  - reflexivity.
  - rewrite (H a) by now left. simpl.
    rewrite IH by (intros x Hx; apply H; now right). reflexivity.
Qed.

Lemma index_in_range {A : Type} (a : list A) (k : Z) (d : A) :
  0 <= k < Z.of_nat (length a) ->
  index a k = Returned (nth (Z.to_nat k) a d).
Proof.
  intros Hk. unfold index.
  destruct (k <? 0) eqn:E; [apply Z.ltb_lt in E; lia|].
  rewrite E. simpl.
  destruct (Z.of_nat (length a) <=? k) eqn:E'; [apply Z.leb_le in E'; lia|].
  destruct (nth_error a (Z.to_nat k)) as [x|] eqn:Hn.
  - now rewrite (nth_error_nth a (Z.to_nat k) d Hn).
  - apply nth_error_None in Hn. lia.
Qed.


Lemma length_removelast {A : Type} (l : list A) :
  length (removelast l) = pred (length l).
Proof. rewrite removelast_firstn_len, length_firstn. lia. Qed.

Lemma combine_times {A B : Type} (l : list A) (x : B) (n : Z) :
  length l = Z.to_nat n ->
  combine l (times x n) = map (fun a => (a, x)) l.
Proof.
  unfold times. intros <-. induction l as [|a l IH]; simpl.
  - reflexivity.
  - now rewrite IH.
Qed.

Lemma map_times {A B : Type} (f : A -> B) (x : A) (n : Z) :
  map f (times x n) = times (f x) n.
Proof. apply map_repeat. Qed.

(** The pool maps the row function over the row indices, in order. *)
Lemma executor_map_rows {B : Type}
  (fn : Z -> list float -> list float -> Z -> Z -> result B)
  (real imag : list float) (m w h : Z) :
  executor_map fn (range h) (times real h) (times imag h)
               (times m h) (times w h) =
  (range h, collect (map (fun i => fn i real imag m w) (range h))).
Proof.
  unfold executor_map.
  assert (Hc : combine (range h)
                 (combine (times real h)
                    (combine (times imag h)
                       (combine (times m h) (times w h)))) =
               map (fun i => (i, (real, (imag, (m, w))))) (range h)).
  { assert (Hlen : forall (A : Type) (x : A), length (times x h) = Z.to_nat h)
      by (intros; apply repeat_length).
    rewrite (combine_times (times m h) w h), map_times by apply Hlen.
    rewrite (combine_times (times imag h) (m, w) h), map_times by apply Hlen.
    rewrite (combine_times (times real h) (imag, (m, w)) h), map_times
      by apply Hlen.
    apply combine_times, range_length. }
  rewrite Hc, !map_map. simpl. f_equal.
  apply map_id.
Qed.

(** [linspace] returns [num] samples whenever [num] is not negative. *)
Lemma linspace_returns (a b : float) (n : Z) :
  0 <= n ->
  exists l, linspace a b n = Returned l /\ length l = Z.to_nat n.
Proof.
  intros Hn. unfold linspace.
  destruct (n <? 0) eqn:E; [apply Z.ltb_lt in E; lia|].
  eexists. split; [reflexivity|].
  destruct (1 <? n) eqn:E1.
  - apply Z.ltb_lt in E1.
    rewrite length_app, length_removelast, length_map.
    destruct (0 <? n - 1); rewrite !length_map, range_length; simpl; lia.
  - destruct (0 <? n - 1); now rewrite !length_map, range_length.
Qed.

Lemma linspace_negative (a b : float) (n : Z) :
  n < 0 -> linspace a b n = Raised ValueError.
Proof.
  intros Hn. unfold linspace.
  destruct (n <? 0) eqn:E; [reflexivity|apply Z.ltb_ge in E; lia].
Qed.



(** A row computed over sample arrays long enough for its indices. *)
Lemma compute_row_cells (i : Z) (real imag : list float) (m w : Z) :
  w <= Z.of_nat (length real) ->
  0 <= i < Z.of_nat (length imag) ->
  compute_row i real imag m w =
  Returned (map (fun j => spec_cell real imag m i j) (range w)).
Proof.
  intros Hw Hi. unfold compute_row.
  apply collect_map_Returned. intros j Hj. apply range_In in Hj.
  rewrite (index_in_range real (f_lit 0)) by lia.
  rewrite (index_in_range imag (f_lit 0)) by lia.
  reflexivity.
Qed.

(** The whole call, once both sample arrays are there: every row index is
    dispatched and the rows come back in index order. *)
Lemma generate_rows (xmin xmax ymin ymax : float) (w h m : Z)
  (real imag : list float) :
  linspace xmin xmax w = Returned real ->
  linspace ymin ymax h = Returned imag ->
  length real = Z.to_nat w ->
  length imag = Z.to_nat h ->
  0 <= w ->
  generate_mandelbrot xmin xmax ymin ymax w h m =
  (range h,
   Returned (map (fun i => map (fun j => spec_cell real imag m i j) (range w))
                 (range h))).
Proof.
  intros Hr Hi Lr Li Hw. unfold generate_mandelbrot.
  rewrite Hr, Hi, executor_map_rows. f_equal.
  apply collect_map_Returned. intros i Hin. apply range_In in Hin.
  apply compute_row_cells; lia.
Qed.

(** Without any condition on the viewport, non-negative dimensions give a
    grid of that shape with every cell between 0 and the cap. *)
Lemma generate_shape (xmin xmax ymin ymax : float) (w h m : Z) :
  0 <= w -> 0 <= h ->
  exists g : grid,
    generate_mandelbrot xmin xmax ymin ymax w h m = (range h, Returned g) /\
    Z.of_nat (length g) = h /\
    Forall (fun row => Z.of_nat (length row) = w /\
                       (0 <= m -> Forall (fun n => 0 <= n <= m) row)) g.
Proof.
  intros Hw Hh.
  destruct (linspace_returns xmin xmax Hw) as (real & Hr & Lr).
  destruct (linspace_returns ymin ymax Hh) as (imag & Hi & Li).
  eexists. split; [apply generate_rows; eassumption|]. split.
  - rewrite length_map, range_length. lia.
  - apply Forall_forall. intros row Hrow.
    apply in_map_iff in Hrow. destruct Hrow as (i & <- & _). split.
    + rewrite length_map, range_length. lia.
    + intros Hm. apply Forall_forall. intros n Hn.
      apply in_map_iff in Hn. destruct Hn as (j & <- & _).
      unfold spec_cell. now apply mandelbrot_bounds.
Qed.

End GridFacts.

(** ** The laws hold in exact arithmetic *)

Section ExactLaws.

Import Exact.

Lemma exact_abs_zero : abs_zero_law (AR := arith).
Proof. reflexivity. Qed.

Lemma exact_first_step_eq (c : cx) : add (mul (czero (AR := arith)) czero) c = c.
Proof.
  destruct c as [re im]. unfold add, mul, czero. simpl.
  change (Q2Qc 0) with 0%Qc. f_equal; ring.
Qed.

Lemma exact_first_step : first_step_law (AR := arith).
Proof. intros c. simpl. now rewrite exact_first_step_eq. Qed.

Lemma exact_zero_fixed : zero_fixed_law (AR := arith).
Proof. apply exact_first_step_eq. Qed.

End ExactLaws.

(** ** The evaluator on concrete points *)

Section EvaluatorRuns.

Import Exact.

Lemma mandelbrot_at_least_one_witness : 1 <= mandelbrot (gauss 1 0) 5.
Proof.
  apply (mandelbrot_at_least_one (AR := arith) (gauss 1 0) (max_iter := 5)).
  - exact exact_abs_zero.
  - lia.
Defined.

Lemma mandelbrot_cap_truncates_witness :
  mandelbrot (gauss 1 0) 2 = Z.min (mandelbrot (gauss 1 0) 5) 2.
Proof.
  apply (mandelbrot_cap_truncates (AR := arith) (gauss 1 0) (m1 := 2) (m2 := 5));
    lia.
Defined.

Lemma mandelbrot_zero_never_escapes_witness :
  mandelbrot (czero (AR := arith)) 100 = 100.
Proof.
  apply (mandelbrot_zero_never_escapes (AR := arith) (max_iter := 100)).
  - exact exact_abs_zero.
  - exact exact_zero_fixed.
  - lia.
Defined.

Lemma mandelbrot_outside_returns_one_witness :
  abs_gt2 (gauss 3 0) = true /\ mandelbrot (gauss 3 0) 5 = 1.
Proof.
  split; [reflexivity|].
  apply (mandelbrot_outside_returns_one (AR := arith) (gauss 3 0)
           (max_iter := 5)).
  - exact exact_abs_zero.
  - exact exact_first_step.
  - reflexivity.
  - lia.
Defined.

(** C2 as stated fails: [3] has magnitude above 2 and the cap is 5, yet the
    evaluator returns 1, not 0. *)
Lemma mandelbrot_outside_not_zero :
  abs_gt2 (gauss 3 0) = true /\ 1 <= 5 /\ mandelbrot (gauss 3 0) 5 <> 0.
Proof.
  split; [reflexivity|]. split; [lia|].
  vm_compute. discriminate.
Qed.

End EvaluatorRuns.

(** ** The grid generator against the specification *)

Section GridClaims.

Context {AR : Arith}.





(** C6: for a well-ordered viewport, [width >= 1], [height >= 1] and
    [max_iter >= 1], [generate_mandelbrot] returns a grid of exactly
    [height] rows of exactly [width] cells, every cell between 0 and
    [max_iter]. *)
Theorem generate_grid_shape_and_range
  (xmin xmax ymin ymax : float) (width height max_iter : Z) :
  fltb xmin xmax = true ->
  fltb ymin ymax = true ->
  1 <= width ->
  1 <= height ->
  1 <= max_iter ->
  exists g : grid,
    snd (generate_mandelbrot xmin xmax ymin ymax width height max_iter) =
      Returned g /\
    Z.of_nat (length g) = height /\
    Forall (fun row => Z.of_nat (length row) = width /\
                       Forall (fun n => 0 <= n <= max_iter) row) g.
Proof.
  intros _ _ Hw Hh Hm.
  destruct (@generate_shape _ xmin xmax ymin ymax width height max_iter)
    as (g & Hg & Hlen & Hrows); [lia|lia|].
  exists g. rewrite Hg. split; [reflexivity|]. split; [exact Hlen|].
  eapply Forall_impl; [|exact Hrows].
  intros row [Hl Hc]. split; [exact Hl|apply Hc; lia].
Qed.

(** C4, as the code has it: [generate_mandelbrot] validates nothing itself.
    A negative [width] or [height] makes [np.linspace] raise [ValueError]
    before any row is dispatched.  With [width >= 0] and [height >= 0],
    zero included and whatever the order of the viewport bounds, the call
    does not fail: it dispatches every row index of [range(height)] and
    returns [height] rows of [width] cells. *)
Theorem generate_validates_nothing
  (xmin xmax ymin ymax : float) (width height max_iter : Z) :
  (width < 0 \/ height < 0 ->
   generate_mandelbrot xmin xmax ymin ymax width height max_iter =
   ([], Raised ValueError)) /\
  (0 <= width -> 0 <= height ->
   exists g : grid,
     generate_mandelbrot xmin xmax ymin ymax width height max_iter =
       (range height, Returned g) /\
     Z.of_nat (length g) = height /\
     Forall (fun row => Z.of_nat (length row) = width) g).
Proof.
  split.
  - intros Hneg. unfold generate_mandelbrot.
    destruct (Z_lt_le_dec width 0) as [Hw|Hw].
    + now rewrite linspace_negative.
    + destruct (linspace_returns xmin xmax Hw) as (real & -> & _).
      rewrite linspace_negative by lia. reflexivity.
  - intros Hw Hh.
    destruct (@generate_shape _ xmin xmax ymin ymax width height max_iter)
      as (g & Hg & Hlen & Hrows); [lia|lia|].
    exists g. split; [exact Hg|]. split; [exact Hlen|].
    eapply Forall_impl; [|exact Hrows]. now intros row [Hl _].
Qed.

End GridClaims.

(** ** The grid generator on concrete inputs *)

Section GridRuns.

Import Exact.

Lemma generate_grid_shape_and_range_witness :
  exists g : grid,
    snd (generate_mandelbrot (Q2Qc (-2)) (Q2Qc 1) (Q2Qc (-1)) (Q2Qc 1) 4 3 10) =
      Returned g /\
    Z.of_nat (length g) = 3 /\
    Forall (fun row => Z.of_nat (length row) = 4 /\
                       Forall (fun n => 0 <= n <= 10) row) g.
Proof.
  apply (generate_grid_shape_and_range (AR := arith)
           (Q2Qc (-2)) (Q2Qc 1) (Q2Qc (-1)) (Q2Qc 1)
           (width := 4) (height := 3) (max_iter := 10)).
  - reflexivity.
  - reflexivity.
  - lia.
  - lia.
  - lia.
Defined.

Lemma generate_validates_nothing_witness :
  generate_mandelbrot (Q2Qc (-2)) (Q2Qc 1) (Q2Qc (-1)) (Q2Qc 1) (-1) 800 100 =
    ([], Raised ValueError) /\
  exists g : grid,
    generate_mandelbrot (Q2Qc 1) (Q2Qc (-2)) (Q2Qc 1) (Q2Qc 1) 0 3 100 =
      (range 3, Returned g) /\
    Z.of_nat (length g) = 3 /\
    Forall (fun row => Z.of_nat (length row) = 0) g.
Proof.
  split.
  - apply (proj1 (generate_validates_nothing (AR := arith)
                    (Q2Qc (-2)) (Q2Qc 1) (Q2Qc (-1)) (Q2Qc 1) (-1) 800 100)).
    left. lia.
  - apply (proj2 (generate_validates_nothing (AR := arith)
                    (Q2Qc 1) (Q2Qc (-2)) (Q2Qc 1) (Q2Qc 1) 0 3 100)); lia.
Defined.

(** C4 as stated fails: with the default viewport and resolution
    [(0, 800)] the call raises nothing, returns 800 (empty) rows, and has
    dispatched all 800 row computations. *)
Lemma generate_zero_width_returns :
  let width := 0 in
  let height := 800 in
  let call :=
    generate_mandelbrot (vxmin original_zoom) (vxmax original_zoom)
      (vymin original_zoom) (vymax original_zoom) width height 100 in
  width <= 0 /\
  (forall e, snd call <> Raised e) /\
  snd call = Returned (times [] 800) /\
  fst call = range 800.
Proof.
  intros width height call.
  split; [unfold width; lia|].
  assert (H : call = (range 800, Returned (times [] 800)))
    by (vm_compute; reflexivity).
  rewrite H. split; [discriminate|split; reflexivity].
Qed.

End GridRuns.

(** ** The grid generator in binary64 *)

Section GridBinary64.

Import Binary64.



End GridBinary64.

(** ** Properties of the zoom history *)

Section HistoryFacts.

Context {AR : Arith}.

(** With the fixed resolution the generation inside [update_plot] returns,
    so [update_plot] sets the zoom and records the time before the unbound
    [ax] stops it. *)
Lemma update_plot_outcome (xmin xmax ymin ymax elapsed : float) (s : state) :
  update_plot xmin xmax ymin ymax elapsed s =
  (State (Viewport xmin xmax ymin ymax) (zoom_history s)
         (timing_history s ++ [elapsed]),
   Raised NameError).
Proof.
  unfold update_plot.
  destruct (@generate_shape _ xmin xmax ymin ymax width height max_iter)
    as (g & Hg & _); [unfold width; lia|unfold height; lia|].
  rewrite Hg. reflexivity.
Qed.

Lemma onselect_outcome (eclick erelease : mouse_event) (elapsed : float)
  (s : state) :
  onselect eclick erelease elapsed s =
  (State (Viewport (fst (sorted2 (xdata eclick) (xdata erelease)))
                   (snd (sorted2 (xdata eclick) (xdata erelease)))
                   (fst (sorted2 (ydata eclick) (ydata erelease)))
                   (snd (sorted2 (ydata eclick) (ydata erelease))))
         (zoom_history s ++ [zoom_params s])
         (timing_history s ++ [elapsed]),
   Raised NameError).
Proof.
  unfold onselect.
  destruct (sorted2 (xdata eclick) (xdata erelease)) as [x0 x1].
  destruct (sorted2 (ydata eclick) (ydata erelease)) as [y0 y1].
  now rewrite update_plot_outcome.
Qed.

Lemma reset_outcome (elapsed : float) (s : state) :
  reset elapsed s =
  (State original_zoom [original_zoom] [elapsed], Raised NameError).
Proof. unfold reset. now rewrite update_plot_outcome. Qed.

Lemma index_last {A : Type} (l : list A) (x : A) :
  index (l ++ [x]) (-1) = Returned x.
Proof.
  unfold index. rewrite length_app. simpl length.
  change (-1 <? 0) with true. cbv iota.
  assert (Hk : -1 + Z.of_nat (length l + 1) = Z.of_nat (length l)) by lia.
  rewrite Hk.
  destruct (Z.of_nat (length l) <? 0) eqn:E; [apply Z.ltb_lt in E; lia|].
  destruct (Z.of_nat (length l + 1) <=? Z.of_nat (length l)) eqn:E';
    [apply Z.leb_le in E'; lia|].
  simpl orb. cbv iota. rewrite Nat2Z.id.
  now rewrite nth_error_app2, Nat.sub_diag by lia.
Qed.

(** [zoom_back] on a stack of at least two entries: the top goes, the entry
    under it becomes the current zoom. *)
Lemma zoom_back_pops (elapsed : float) (cur v top : viewport)
  (below : list viewport) (times_ : list float) :
  zoom_back elapsed (State cur (below ++ [v; top]) times_) =
  (State v (below ++ [v]) (times_ ++ [elapsed]), Raised NameError).
Proof.
  unfold zoom_back. simpl zoom_history.
  replace (below ++ [v; top]) with ((below ++ [v]) ++ [top])
    by now rewrite <- app_assoc.
  rewrite length_app. simpl length.
  destruct (1 <? Z.of_nat (length (below ++ [v]) + 1)) eqn:E.
  - rewrite removelast_last. simpl zoom_history.
    rewrite index_last, update_plot_outcome. simpl.
    now destruct v.
  - apply Z.ltb_ge in E. rewrite length_app in E. simpl in E. lia.
Qed.

(** After two zoom gestures the Back button restores the original zoom,
    whatever the first gesture had selected. *)
Lemma zoom_back_after_two_selects
  (e1 r1 e2 r2 : mouse_event) (t1 t2 t3 : float) :
  let sA := fst (onselect e1 r1 t1 init_state) in
  let sB := fst (onselect e2 r2 t2 sA) in
  let s := fst (zoom_back t3 sB) in
  zoom_history sB = [original_zoom; original_zoom; zoom_params sA] /\
  zoom_history s = [original_zoom; original_zoom] /\
  zoom_params s = original_zoom.
Proof.
  intros sA sB s. subst s sB sA.
  rewrite onselect_outcome. cbn [fst].
  rewrite onselect_outcome. cbn [fst zoom_history zoom_params app].
  split; [reflexivity|].
  match goal with
  | |- context [zoom_back t3 (State ?c ?h ?t)] =>
      change h with ([original_zoom] ++ [original_zoom; Viewport
        (fst (sorted2 (xdata e1) (xdata r1)))
        (snd (sorted2 (xdata e1) (xdata r1)))
        (fst (sorted2 (ydata e1) (ydata r1)))
        (snd (sorted2 (ydata e1) (ydata r1)))])
  end.
  rewrite zoom_back_pops. split; reflexivity.
Qed.

(** C5, as the code has it: on a history stack of exactly one entry
    [zoom_back] raises nothing; it returns at once and leaves the stack, the
    current zoom and the timings as they were. *)
Theorem zoom_back_single_entry_is_noop (elapsed : float) (s : state) :
  length (zoom_history s) = 1%nat ->
  zoom_back elapsed s = (s, Returned tt).
Proof.
  intros Hlen. unfold zoom_back. now rewrite Hlen.
Qed.

Lemma step_keeps_entry (s s' : state) :
  step s s' ->
  (1 <= length (zoom_history s))%nat ->
  (1 <= length (zoom_history s'))%nat.
Proof.
  intros Hstep Hs. destruct Hstep as [e r t s|t s|t s].
  - rewrite onselect_outcome. simpl. rewrite length_app. simpl. lia.
  - rewrite reset_outcome. simpl. lia.
  - unfold zoom_back.
    destruct (1 <? Z.of_nat (length (zoom_history s))) eqn:E; [|exact Hs].
    apply Z.ltb_lt in E. simpl zoom_history.
    assert (Hrm : (1 <= length (removelast (zoom_history s)))%nat)
      by (rewrite length_removelast; lia).
    destruct (index (removelast (zoom_history s)) (-1)).
    + now rewrite update_plot_outcome.
    + exact Hrm.
Qed.

(** C8: every state reachable from the initial single-entry state by zoom
    gestures, Back and Reset has at least one entry in its history stack. *)
Theorem history_never_empty (s : state) :
  reachable s ->
  (1 <= length (zoom_history s))%nat.
Proof.
  induction 1 as [|s s' _ IH Hstep].
  - simpl. lia.
  - exact (step_keeps_entry Hstep IH).
Qed.

End HistoryFacts.

(** ** The zoom history on concrete gestures *)

Section HistoryRuns.

Import Exact.

(** C3 on the code: from the initial state, zoom to [viewA], zoom to
    [viewB], then Back.  [onselect] appends the zoom that was current before
    the gesture, so the stack is [original; original; viewA] when Back is
    pressed; [zoom_back] drops [viewA] and shows the new top, the original
    zoom.  The zoom [viewA] is never shown again. *)
Theorem zoom_back_after_two_zooms_shows_original :
  let sA := fst (onselect clickA releaseA (secs 2) init_state) in
  let sB := fst (onselect clickB releaseB (secs 3) sA) in
  let s := fst (zoom_back (secs 2) sB) in
  zoom_params sA = viewA /\
  zoom_params sB = viewB /\
  zoom_history sB = [original_zoom; original_zoom; viewA] /\
  (1 < length (zoom_history sB))%nat /\
  zoom_history s = [original_zoom; original_zoom] /\
  zoom_params s = original_zoom /\
  zoom_params s <> viewA.
Proof.
  intros sA sB s.
  destruct (zoom_back_after_two_selects (AR := arith)
              clickA releaseA clickB releaseB (secs 2) (secs 3) (secs 2))
    as (HhB & Hh & Hp).
  fold sA in HhB, Hh, Hp. fold sB in HhB, Hh, Hp. fold s in Hh, Hp.
  assert (HA : zoom_params sA = viewA)
    by (unfold sA; rewrite onselect_outcome; reflexivity).
  assert (HB : zoom_params sB = viewB)
    by (unfold sB; rewrite onselect_outcome; reflexivity).
  split; [exact HA|]. split; [exact HB|].
  split; [rewrite HhB, HA; reflexivity|].
  split; [rewrite HhB; simpl; lia|].
  split; [exact Hh|]. split; [exact Hp|].
  rewrite Hp. intros Heq.
  assert (Hx : this (vxmin original_zoom) = this (vxmin viewA))
    by now rewrite Heq.
  vm_compute in Hx. discriminate.
Qed.

Lemma zoom_back_single_entry_is_noop_witness :
  length (zoom_history init_state) = 1%nat /\
  zoom_back (secs 1) init_state = (init_state, Returned tt).
Proof.
  split; [reflexivity|].
  apply (zoom_back_single_entry_is_noop (AR := arith) (secs 1) init_state).
  reflexivity.
Defined.

(** C5 as stated fails: on the initial single-entry stack [zoom_back]
    raises no error at all. *)
Lemma zoom_back_single_entry_raises_nothing :
  length (zoom_history init_state) = 1%nat /\
  forall e, snd (zoom_back (secs 1) init_state) <> Raised e.
Proof.
  split; [reflexivity|].
  assert (H : zoom_back (secs 1) init_state = (init_state, Returned tt))
    by reflexivity.
  rewrite H. discriminate.
Qed.

Lemma history_never_empty_witness :
  (1 <= length (zoom_history
                  (fst (zoom_back (secs 1)
                          (fst (onselect clickA releaseA (secs 2)
                                  init_state))))))%nat.
Proof.
  apply (history_never_empty (AR := arith)).
  eapply reachable_step.
  - eapply reachable_step.
    + apply reachable_init.
    + apply step_onselect.
  - apply step_zoom_back.
Defined.

End HistoryRuns.

(** ** Further properties of the escape-time evaluator *)

Section EvaluatorMore.

Context {AR : Arith}.

(** What the loop returns, in terms of the values [z] goes through: the
    number of the first iteration that finds [abs(z) > 2], or the cap when
    none of the [k] iterations does. *)
Lemma loop_first_escape (k : nat) :
  forall (s : nat) (z c : complex) (m : Z),
    let f := fun z => cadd (csq z) c in
    let r := mandelbrot_loop (map Z.of_nat (seq s k)) z c m in
    (exists j, (j < k)%nat /\ r = Z.of_nat (s + j) /\
               abs_gt2 (Nat.iter j f z) = true /\
               forall i, (i < j)%nat -> abs_gt2 (Nat.iter i f z) = false) \/
    (r = m /\ forall i, (i < k)%nat -> abs_gt2 (Nat.iter i f z) = false).
Proof.
  induction k as [|k IH]; intros s z c m f r.
  - right. split; [reflexivity|]. intros i Hi. lia.
  - subst r. simpl. destruct (abs_gt2 z) eqn:Hz.
    + left. exists 0%nat. repeat split.
      * lia.
      * f_equal. lia.
      * exact Hz.
      * intros i Hi. lia.
    + pose proof (IH (S s) (f z) c m) as H. cbv zeta in H. fold f in H.
      unfold f at 1 in H. unfold f at 2 in H.
      destruct H as [(j & Hj & Hr & Hesc & Hbefore)|[Hr Hnone]].
      * left. exists (S j). split; [lia|]. split; [rewrite Hr; f_equal; lia|].
        split; [now rewrite Nat.iter_succ_r|].
        intros [|i] Hi; [exact Hz|].
        rewrite Nat.iter_succ_r. apply Hbefore. lia.
      * right. split; [exact Hr|].
        intros [|i] Hi; [exact Hz|].
        rewrite Nat.iter_succ_r. apply Hnone. lia.
Qed.

(** The cap cuts the result, for every cap from 0 on. *)
Lemma mandelbrot_min (c : complex) (m1 m2 : Z) :
  0 <= m1 -> m1 <= m2 ->
  mandelbrot c m1 = Z.min (mandelbrot c m2) m1.
Proof.
  intros H1 H12.
  rewrite <- (Z2Nat.id m1) by lia. rewrite <- (Z2Nat.id m2) by lia.
  rewrite !mandelbrot_of_nat. apply loop_truncate. lia.
Qed.

(** X1: [mandelbrot c max_iter] is the index of the first point of the
    orbit of 0 under [z -> z**2 + c] whose magnitude exceeds 2: no earlier
    point of the orbit has escaped, and a result below the cap is the index
    of a point that has. *)
Theorem mandelbrot_is_first_escape (c : complex) (max_iter : Z) :
  let r := mandelbrot c max_iter in
  (forall k : nat, Z.of_nat k < r -> abs_gt2 (orbit c k) = false) /\
  (r < max_iter -> abs_gt2 (orbit c (Z.to_nat r)) = true).
Proof.
  intros r. subst r. unfold mandelbrot, range, orbit.
  destruct (loop_first_escape (Z.to_nat max_iter) 0 czero c max_iter)
    as [(j & Hj & Hr & Hesc & Hbefore)|[Hr Hnone]]; rewrite Hr.
  - split.
    + intros k Hk. apply Hbefore. lia.
    + intros _. simpl. now rewrite Nat2Z.id.
  - split.
    + intros k Hk. apply Hnone. lia.
    + lia.
Qed.

(** X2: a result below the cap does not depend on the cap: once
    [mandelbrot c m < m], every larger cap gives the same value. *)
Theorem mandelbrot_escaped_value_is_stable (c : complex) (m m' : Z) :
  mandelbrot c m < m ->
  m <= m' ->
  mandelbrot c m' = mandelbrot c m.
Proof.
  intros Hesc Hle.
  destruct (Z_lt_le_dec m 0) as [Hneg|Hpos].
  - unfold mandelbrot in Hesc. rewrite range_nonpos in Hesc by lia.
    simpl in Hesc. lia.
  - pose proof (mandelbrot_min c Hpos Hle) as Hmin. lia.
Qed.

End EvaluatorMore.

(** ** Further properties of the grid generator *)

Section GridMore.

Context {AR : Arith}.

Lemma index_outcome {A : Type} (a : list A) (k : Z) :
  if valid_index a k
  then exists x, index a k = Returned x
  else index a k = Raised IndexError.
Proof.
  unfold valid_index, index.
  set (n := Z.of_nat (length a)).
  destruct (k <? 0) eqn:Hneg.
  - apply Z.ltb_lt in Hneg.
    replace (k <? n) with true by (symmetry; apply Z.ltb_lt; lia).
    rewrite andb_true_r.
    destruct (- n <=? k) eqn:Hlow.
    + apply Z.leb_le in Hlow.
      replace (k + n <? 0) with false by (symmetry; apply Z.ltb_ge; lia).
      replace (n <=? k + n) with false by (symmetry; apply Z.leb_gt; lia).
      simpl. destruct (nth_error a (Z.to_nat (k + n))) as [x|] eqn:Hn.
      * now exists x.
      * apply nth_error_None in Hn. lia.
    + apply Z.leb_gt in Hlow.
      replace (k + n <? 0) with true by (symmetry; apply Z.ltb_lt; lia).
      reflexivity.
  - apply Z.ltb_ge in Hneg.
    replace (- n <=? k) with true by (symmetry; apply Z.leb_le; lia).
    simpl. replace (k <? 0) with false by (symmetry; apply Z.ltb_ge; lia).
    simpl. destruct (k <? n) eqn:Hup.
    + apply Z.ltb_lt in Hup.
      replace (n <=? k) with false by (symmetry; apply Z.leb_gt; lia).
      simpl. destruct (nth_error a (Z.to_nat k)) as [x|] eqn:Hn.
      * now exists x.
      * apply nth_error_None in Hn. lia.
    + apply Z.ltb_ge in Hup.
      replace (n <=? k) with true by (symmetry; apply Z.leb_le; lia).
      reflexivity.
Qed.

(** A negative index names the element it counts back to. *)
Lemma index_from_end {A : Type} (a : list A) (k : Z) :
  0 <= k < Z.of_nat (length a) ->
  index a (k - Z.of_nat (length a)) = index a k.
Proof.
  intros Hk. unfold index.
  replace (k - Z.of_nat (length a) <? 0) with true
    by (symmetry; apply Z.ltb_lt; lia).
  replace (k <? 0) with false by (symmetry; apply Z.ltb_ge; lia).
  now replace (k - Z.of_nat (length a) + Z.of_nat (length a)) with k by lia.
Qed.

Lemma collect_all_returned {A B : Type} (f : A -> result B) (l : list A) :
  (forall x, In x l -> exists b, f x = Returned b) ->
  exists r, collect (map f l) = Returned r /\ length r = length l.
Proof.
  induction l as [|a l IH]; intros H; simpl.
  - now exists [].
  - destruct (H a) as (b & Hb); [now left|].
    destruct IH as (r & Hr & Hlen); [intros x Hx; apply H; now right|].
    exists (b :: r). rewrite Hb, Hr. simpl. now rewrite Hlen.
Qed.

(** Calls that can raise nothing but [e], one of which does: collecting
    their results raises [e]. *)
Lemma collect_one_raises {A B : Type} (f : A -> result B) (e : exn)
  (l : list A) (x : A) :
  In x l -> f x = Raised e ->
  (forall y, In y l -> f y = Raised e \/ exists b, f y = Returned b) ->
  collect (map f l) = Raised e.
Proof.
  induction l as [|a l IH]; intros Hin Hx Hall; [contradiction|].
  simpl. destruct (Hall a) as [Ha|(b & Ha)]; [now left| |]; rewrite Ha; simpl.
  - reflexivity.
  - destruct Hin as [<-|Hin]; [congruence|].
    rewrite IH; [reflexivity|assumption|assumption|].
    intros y Hy. apply Hall. now right.
Qed.

(** X3: [compute_row] returns a row of [width] cells when [width <= 0]
    (the empty row) or when [width] does not exceed the number of real
    samples and [i] is an index of the imaginary samples, counted from
    either end; in every other case it raises [IndexError]. *)
Theorem compute_row_outcome (i : Z) (real imag : list float)
  (max_iter width : Z) :
  if (width <=? 0) ||
     ((width <=? Z.of_nat (length real)) && valid_index imag i)
  then exists row,
         compute_row i real imag max_iter width = Returned row /\
         length row = Z.to_nat width
  else compute_row i real imag max_iter width = Raised IndexError.
Proof.
  unfold compute_row.
  destruct (width <=? 0) eqn:Hw0; simpl.
  { apply Z.leb_le in Hw0. rewrite range_nonpos by assumption. simpl.
    exists []. split; [reflexivity|]. simpl. lia. }
  apply Z.leb_gt in Hw0.
  pose proof (index_outcome imag i) as Hi.
  destruct (width <=? Z.of_nat (length real)) eqn:Hwr; simpl.
  - apply Z.leb_le in Hwr. destruct (valid_index imag i).
    + destruct Hi as (y & Hy).
      match goal with
      | |- exists row, collect (map ?f ?l) = _ /\ _ =>
          destruct (collect_all_returned f l) as (r & Hr & Hlen)
      end.
      * intros j Hj. apply range_In in Hj.
        rewrite (index_in_range real (f_lit 0)) by lia.
        rewrite Hy. simpl. eauto.
      * exists r. split; [exact Hr|]. now rewrite Hlen, range_length.
    + apply collect_one_raises with (x := 0).
      * apply range_In. lia.
      * rewrite (index_in_range real (f_lit 0)) by lia. now rewrite Hi.
      * intros j Hj. apply range_In in Hj. left.
        rewrite (index_in_range real (f_lit 0)) by lia. now rewrite Hi.
  - apply Z.leb_gt in Hwr.
    apply collect_one_raises with (x := Z.of_nat (length real)).
    + apply range_In. lia.
    + pose proof (index_outcome real (Z.of_nat (length real))) as Hr.
      unfold valid_index in Hr. rewrite Z.ltb_irrefl, andb_false_r in Hr.
      now rewrite Hr.
    + intros j Hj.
      pose proof (index_outcome real j) as Hr.
      destruct (valid_index real j).
      * destruct Hr as (x & ->). simpl.
        destruct (valid_index imag i).
        -- destruct Hi as (y & ->). simpl. right. eauto.
        -- rewrite Hi. now left.
      * rewrite Hr. now left.
Qed.

(** X4: a negative row index counts from the last imaginary sample:
    [compute_row] at [i - len(imag)] computes the row of [i]. *)
Theorem compute_row_negative_index (i : Z) (real imag : list float)
  (max_iter width : Z) :
  0 <= i < Z.of_nat (length imag) ->
  compute_row (i - Z.of_nat (length imag)) real imag max_iter width =
  compute_row i real imag max_iter width.
Proof.
  intros Hi. unfold compute_row. f_equal.
  apply map_ext. intros j. now rewrite index_from_end.
Qed.

(** X5: lowering the cap cuts the grid cell by cell: for [0 <= m1 <= m2]
    and non-negative dimensions, the grid generated with cap [m1] is the
    grid generated with cap [m2] with every cell replaced by its minimum
    with [m1]. *)
Theorem generate_cap_cuts_cells
  (xmin xmax ymin ymax : float) (width height m1 m2 : Z) :
  0 <= width -> 0 <= height ->
  0 <= m1 -> m1 <= m2 ->
  exists g2 : grid,
    snd (generate_mandelbrot xmin xmax ymin ymax width height m2) =
      Returned g2 /\
    snd (generate_mandelbrot xmin xmax ymin ymax width height m1) =
      Returned (map (map (fun n => Z.min n m1)) g2).
Proof.
  intros Hw Hh H1 H12.
  destruct (linspace_returns xmin xmax Hw) as (real & Hr & Lr).
  destruct (linspace_returns ymin ymax Hh) as (imag & Hi & Li).
  rewrite (@generate_rows _ xmin xmax ymin ymax width height m2 real imag)
    by assumption.
  rewrite (@generate_rows _ xmin xmax ymin ymax width height m1 real imag)
    by assumption.
  eexists. split; [reflexivity|]. simpl. f_equal.
  rewrite map_map. apply map_ext. intros i.
  rewrite map_map. apply map_ext. intros j.
  unfold spec_cell. now apply mandelbrot_min.
Qed.

End GridMore.

(** ** Further properties of the zoom history *)

Section HistoryMore.

Context {AR : Arith}.

Lemma two_last {A : Type} (l : list A) :
  (1 < length l)%nat -> exists below v top, l = below ++ [v; top].
Proof.
  intros Hlen.
  destruct (exists_last (l := l)) as (l1 & top & ->).
  { intros ->. simpl in Hlen. lia. }
  rewrite length_app in Hlen. simpl in Hlen.
  destruct (exists_last (l := l1)) as (below & v & ->).
  { intros ->. simpl in Hlen. lia. }
  exists below, v, top. now rewrite <- app_assoc.
Qed.

Lemma last_or_nil {A : Type} (l : list A) :
  l = [] \/ exists l' x, l = l' ++ [x].
Proof.
  induction l as [|x l' _] using rev_ind; [now left|right; eauto].
Qed.

(** [zoom_back] on a stack of at most one entry does nothing. *)
Lemma zoom_back_short (elapsed : float) (s : state) :
  (length (zoom_history s) <= 1)%nat ->
  zoom_back elapsed s = (s, Returned tt).
Proof.
  intros Hlen. unfold zoom_back.
  destruct (1 <? Z.of_nat (length (zoom_history s))) eqn:E;
    [apply Z.ltb_lt in E; lia|reflexivity].
Qed.

(** [zoom_back] on a stack whose bottom is [o] and that has more entries:
    the top goes and the last of what remains is shown. *)
Lemma zoom_back_above_bottom (elapsed : float) (cur o top : viewport)
  (rest : list viewport) (tm : list float) :
  zoom_back elapsed (State cur (o :: rest ++ [top]) tm) =
  (State (last (o :: rest) o) (o :: rest) (tm ++ [elapsed]),
   Raised NameError).
Proof.
  destruct (last_or_nil rest) as [->|(rest' & v & ->)].
  - exact (zoom_back_pops elapsed cur o top [] tm).
  - replace (o :: (rest' ++ [v]) ++ [top]) with ((o :: rest') ++ [v; top])
      by (simpl; now rewrite <- app_assoc).
    rewrite (zoom_back_pops elapsed cur v top (o :: rest') tm).
    replace (o :: rest' ++ [v]) with ((o :: rest') ++ [v]) by reflexivity.
    now rewrite last_last.
Qed.

(** The bottom of the stack is the original zoom in every reachable state,
    and a stack reduced to it goes with the original zoom being shown. *)
Lemma reachable_anchor (s : state) :
  reachable s ->
  exists rest,
    zoom_history s = original_zoom :: rest /\
    (rest = [] -> zoom_params s = original_zoom).
Proof.
  induction 1 as [|s s' _ (rest & Hh & Hp) Hstep].
  - exists []. split; reflexivity.
  - destruct Hstep as [e r t s|t s|t s].
    + rewrite (onselect_outcome e r t s). cbn [fst zoom_history zoom_params].
      exists (rest ++ [zoom_params s]). rewrite Hh. split; [reflexivity|].
      intros Hnil. now destruct rest.
    + rewrite (reset_outcome t s). cbn [fst zoom_history zoom_params].
      exists []. split; reflexivity.
    + destruct (last_or_nil rest) as [->|(rest' & top & ->)].
      * rewrite (zoom_back_short t s) by (rewrite Hh; simpl; lia).
        exists []. split; [exact Hh|exact Hp].
      * destruct s as [cur h tm]. cbn [zoom_history zoom_params] in *.
        subst h.
        rewrite (zoom_back_above_bottom t cur original_zoom top rest' tm).
        cbn [fst zoom_history zoom_params].
        exists rest'. split; [reflexivity|]. now intros ->.
Qed.

Lemma press_back_bottom (ts : list float) :
  forall (rest : list viewport) (cur : viewport) (tm : list float),
    (length rest <= length ts)%nat ->
    (rest = [] -> cur = original_zoom) ->
    let s' := press_back ts (State cur (original_zoom :: rest) tm) in
    zoom_params s' = original_zoom /\ zoom_history s' = [original_zoom].
Proof.
  induction ts as [|t ts IH]; intros rest cur tm Hlen Hcur s'.
  - destruct rest; [|simpl in Hlen; lia].
    subst s'. cbn. split; [now apply Hcur|reflexivity].
  - subst s'. unfold press_back. cbn [fold_left].
    fold (press_back ts).
    destruct (last_or_nil rest) as [->|(rest' & top & ->)].
    + rewrite (zoom_back_short t (State cur [original_zoom] tm))
        by (simpl; lia).
      cbn [fst]. apply (IH [] cur tm); [simpl; lia|exact Hcur].
    + rewrite (zoom_back_above_bottom t cur original_zoom top rest' tm).
      cbn [fst].
      apply (IH rest' (last (original_zoom :: rest') original_zoom)
                (tm ++ [t])).
      * rewrite length_app in Hlen. simpl in Hlen. lia.
      * now intros ->.
Qed.

Lemma sorted2_ordered (a b : float) :
  lt_asym_law ->
  fltb (snd (sorted2 a b)) (fst (sorted2 a b)) = false.
Proof.
  intros Hasym. unfold sorted2.
  destruct (fltb b a) eqn:E; simpl; [now apply Hasym|exact E].
Qed.


(** X6: in every state the program can reach, the bottom entry of
    [zoom_history] is the original zoom; and when the stack holds that
    entry alone, the zoom shown is the original zoom. *)
Theorem history_bottom_is_original (s : state) :
  reachable s ->
  index (zoom_history s) 0 = Returned original_zoom /\
  (length (zoom_history s) = 1%nat -> zoom_params s = original_zoom).
Proof.
  intros Hreach.
  destruct (reachable_anchor Hreach) as (rest & Hh & Hp).
  rewrite Hh. split.
  - rewrite (index_in_range (original_zoom :: rest) original_zoom);
      [reflexivity|simpl; lia].
  - intros Hlen. apply Hp. destruct rest; [reflexivity|discriminate].
Qed.

(** X7: from any reachable state, pressing Back at least once per entry
    above the bottom of the stack ends on the original zoom with a history
    of that single entry. *)
Theorem enough_backs_reach_original (s : state) (ts : list float) :
  reachable s ->
  (length (zoom_history s) - 1 <= length ts)%nat ->
  zoom_params (press_back ts s) = original_zoom /\
  zoom_history (press_back ts s) = [original_zoom].
Proof.
  intros Hreach Hlen.
  destruct (reachable_anchor Hreach) as (rest & Hh & Hp).
  destruct s as [cur h tm]. cbn [zoom_history zoom_params] in *. subst h.
  apply press_back_bottom.
  - simpl in Hlen. lia.
  - exact Hp.
Qed.

(** X8: a zoom gesture followed by Back puts the stack back as it was, and
    shows the entry on top of it, which is the zoom shown before the
    gesture only if that zoom was on top of the stack. *)
Theorem select_then_back_restores_stack
  (eclick erelease : mouse_event) (t1 t2 : float) (s : state)
  (below : list viewport) (top : viewport) :
  zoom_history s = below ++ [top] ->
  let s' := fst (zoom_back t2 (fst (onselect eclick erelease t1 s))) in
  zoom_history s' = zoom_history s /\
  zoom_params s' = top /\
  timing_history s' = timing_history s ++ [t1; t2].
Proof.
  intros Hh s'. subst s'.
  rewrite (onselect_outcome eclick erelease t1 s). cbn [fst]. rewrite Hh.
  replace ((below ++ [top]) ++ [zoom_params s])
    with (below ++ [top; zoom_params s]) by now rewrite <- app_assoc.
  match goal with
  | |- context [zoom_back t2 (State ?c _ ?tm)] =>
      rewrite (zoom_back_pops t2 c top (zoom_params s) below tm)
  end.
  cbn [fst zoom_history zoom_params timing_history].
  split; [reflexivity|]. split; [reflexivity|].
  now rewrite <- app_assoc.
Qed.

(** X9: [reset] forgets the state it is called in: whatever came before,
    it leaves the original zoom shown, a history of that single entry and
    the one timing of its own rendering; Back pressed next does nothing. *)
Theorem reset_then_back_does_nothing (t1 t2 : float) (s : state) :
  let s1 := fst (reset t1 s) in
  zoom_params s1 = original_zoom /\
  zoom_history s1 = [original_zoom] /\
  timing_history s1 = [t1] /\
  zoom_back t2 s1 = (s1, Returned tt).
Proof.
  intros s1. subst s1. rewrite (reset_outcome t1 s). cbn [fst].
  split; [reflexivity|]. split; [reflexivity|]. split; [reflexivity|].
  apply zoom_back_short. simpl. lia.
Qed.

(** X10: whatever the two corners of the dragged rectangle, the zoom
    [onselect] sets has its bounds in order: neither [xmax < xmin] nor
    [ymax < ymin]. *)
Theorem onselect_orders_bounds
  (eclick erelease : mouse_event) (elapsed : float) (s : state) :
  lt_asym_law ->
  let v := zoom_params (fst (onselect eclick erelease elapsed s)) in
  fltb (vxmax v) (vxmin v) = false /\ fltb (vymax v) (vymin v) = false.
Proof.
  intros Hasym v. subst v.
  rewrite (onselect_outcome eclick erelease elapsed s).
  cbn [fst zoom_params vxmin vxmax vymin vymax].
  split; now apply sorted2_ordered.
Qed.


(** X12: a handler that renders ends in [NameError], after it has updated
    the globals: [update_plot] reads [ax], which only [run_gui] binds, as a
    local.  So [onselect] and [reset] raise [NameError] in every state, and
    [zoom_back] raises it exactly when the stack has more than one entry,
    returning normally otherwise.  No handler raises [IndexError] or
    [ValueError]: the generation at the fixed resolution returns, and the
    test [len > 1] keeps [zoom_history[-1]] in range. *)
Theorem handlers_end_in_name_error
  (eclick erelease : mouse_event) (elapsed : float) (s : state) :
  snd (onselect eclick erelease elapsed s) = Raised NameError /\
  snd (reset elapsed s) = Raised NameError /\
  snd (zoom_back elapsed s) =
    if 1 <? Z.of_nat (length (zoom_history s))
    then Raised NameError else Returned tt.
Proof.
  split; [now rewrite (onselect_outcome eclick erelease elapsed s)|].
  split; [now rewrite (reset_outcome elapsed s)|].
  destruct (1 <? Z.of_nat (length (zoom_history s))) eqn:E.
  - apply Z.ltb_lt in E. destruct s as [cur h tm]. cbn [zoom_history] in E.
    destruct (two_last h) as (below & v & top & ->); [lia|].
    now rewrite (zoom_back_pops elapsed cur v top below tm).
  - apply Z.ltb_ge in E. rewrite (zoom_back_short elapsed s); [reflexivity|lia].
Qed.

(** X13: the average [update_plot] computes never divides by zero: the
    time of the rendering is recorded first, so the list averaged has at
    least one entry. *)
Theorem update_plot_average_defined
  (xmin xmax ymin ymax elapsed : float) (s : state) :
  let timings :=
    timing_history (fst (update_plot xmin xmax ymin ymax elapsed s)) in
  timings = timing_history s ++ [elapsed] /\
  average_time timings =
    Some (fdiv (fold_left fadd timings (f_lit 0))
               (f_lit (inject_Z (Z.of_nat (length (timing_history s)) + 1)))).
Proof.
  intros timings. subst timings.
  rewrite (update_plot_outcome xmin xmax ymin ymax elapsed s).
  cbn [fst timing_history]. split; [reflexivity|].
  unfold average_time.
  destruct (timing_history s ++ [elapsed]) as [|t l] eqn:E.
  - now destruct (timing_history s).
  - rewrite <- E, length_app. simpl length.
    now rewrite Nat2Z.inj_add.
Qed.

End HistoryMore.

(** ** The further properties on concrete inputs *)

Section MoreRuns.

Import Exact.

Lemma exact_lt_asym : lt_asym_law (AR := arith).
Proof.
  intros a b. simpl. unfold lt, Qccompare.
  rewrite <- (Qcompare_antisym (this a) (this b)).
  destruct (this a ?= this b)%Q; simpl; congruence.
Qed.


(** A state reached by two zoom gestures. *)
Lemma two_zooms_reachable :
  reachable (fst (onselect clickB releaseB (secs 3)
                    (fst (onselect clickA releaseA (secs 2) init_state)))).
Proof.
  eapply reachable_step.
  - eapply reachable_step.
    + apply reachable_init.
    + apply step_onselect.
  - apply step_onselect.
Qed.

Lemma mandelbrot_escaped_value_is_stable_witness :
  mandelbrot (gauss 1 0) 100 = mandelbrot (gauss 1 0) 5.
Proof.
  apply (mandelbrot_escaped_value_is_stable (AR := arith) (gauss 1 0)
           (m := 5) (m' := 100)).
  - vm_compute. reflexivity.
  - lia.
Defined.

Lemma compute_row_negative_index_witness :
  compute_row (-1) [Q2Qc (-2); Q2Qc 0] [Q2Qc (-1); Q2Qc 0; Q2Qc 1] 10 2 =
  compute_row 2 [Q2Qc (-2); Q2Qc 0] [Q2Qc (-1); Q2Qc 0; Q2Qc 1] 10 2.
Proof.
  apply (compute_row_negative_index (AR := arith) (i := 2)
           [Q2Qc (-2); Q2Qc 0] [Q2Qc (-1); Q2Qc 0; Q2Qc 1] 10 2).
  simpl. lia.
Defined.

Lemma generate_cap_cuts_cells_witness :
  exists g2 : grid,
    snd (generate_mandelbrot (Q2Qc (-2)) (Q2Qc 1) (Q2Qc (-1)) (Q2Qc 1) 4 3 10) =
      Returned g2 /\
    snd (generate_mandelbrot (Q2Qc (-2)) (Q2Qc 1) (Q2Qc (-1)) (Q2Qc 1) 4 3 2) =
      Returned (map (map (fun n => Z.min n 2)) g2).
Proof.
  apply (generate_cap_cuts_cells (AR := arith)
           (Q2Qc (-2)) (Q2Qc 1) (Q2Qc (-1)) (Q2Qc 1)
           (width := 4) (height := 3) (m1 := 2) (m2 := 10)); lia.
Defined.

Lemma history_bottom_is_original_witness :
  let s := fst (onselect clickB releaseB (secs 3)
                  (fst (onselect clickA releaseA (secs 2) init_state))) in
  index (zoom_history s) 0 = Returned original_zoom /\
  (length (zoom_history s) = 1%nat -> zoom_params s = original_zoom).
Proof.
  exact (history_bottom_is_original (AR := arith) two_zooms_reachable).
Defined.

Lemma enough_backs_reach_original_witness :
  let s := fst (onselect clickB releaseB (secs 3)
                  (fst (onselect clickA releaseA (secs 2) init_state))) in
  zoom_params (press_back [secs 2; secs 2] s) = original_zoom /\
  zoom_history (press_back [secs 2; secs 2] s) = [original_zoom].
Proof.
  intros s.
  apply (enough_backs_reach_original (AR := arith) (s := s)
           [secs 2; secs 2] two_zooms_reachable).
  subst s.
  rewrite (onselect_outcome clickB releaseB (secs 3)
             (fst (onselect clickA releaseA (secs 2) init_state))).
  rewrite (onselect_outcome clickA releaseA (secs 2) init_state).
  cbn [fst zoom_history length app init_state]. simpl. lia.
Defined.

Lemma select_then_back_restores_stack_witness :
  let s' := fst (zoom_back (secs 2)
                   (fst (onselect clickA releaseA (secs 2) init_state))) in
  zoom_history s' = zoom_history init_state /\
  zoom_params s' = original_zoom /\
  timing_history s' = timing_history init_state ++ [secs 2; secs 2].
Proof.
  apply (select_then_back_restores_stack (AR := arith)
           clickA releaseA (secs 2) (secs 2) init_state [] original_zoom).
  reflexivity.
Defined.

Lemma onselect_orders_bounds_witness :
  let v := zoom_params (fst (onselect clickA releaseA (secs 2) init_state)) in
  fltb (vxmax v) (vxmin v) = false /\ fltb (vymax v) (vymin v) = false.
Proof.
  apply (onselect_orders_bounds (AR := arith)
           clickA releaseA (secs 2) init_state).
  exact exact_lt_asym.
Defined.


End MoreRuns.
